(** * BookManager over an SQLite table: model and verification

    The repository is one Python class, [BookManager] (book_manager.py),
    whose methods each run one SQL statement on a table

      books(id INTEGER PRIMARY KEY AUTOINCREMENT, title TEXT NOT NULL,
            author TEXT NOT NULL, year INTEGER, isbn TEXT UNIQUE, genre TEXT)

    through a [sqlite3] connection and cursor kept in the object.

    The development has four layers:
    - the data: rows, fetched tuples, the connection/cursor/console state;
    - [Sqlite]: what each SQL statement issued by the class does to that
      state (constraints, AUTOINCREMENT, LIKE, ORDER BY, closed connection);
    - [BookManager]: the methods, statement by statement as in the source,
      in a state-and-exception monad;
    - [Main]: the console helpers of main.py ([print_book],
      [print_all_books], [populate_sample_data]) over the same monad.

    Modelling conventions.  Python [int] is [Z] and Python [str] is
    [string], one [ascii] per character; SQL NULL / Python [None] is
    [None].  Column values are stored as given, TEXT compares by character
    code (BINARY collation), and LIKE folds the 26 ASCII letters.  The
    limits of the engine that a caller of the class can reach are part of
    the model: an [int] argument outside 64 bits is refused by the driver
    with [OverflowError] before the statement runs, the LIKE routine reads
    pattern and text as C strings (up to the first character of code 0)
    and refuses a pattern of more than 50000 bytes with
    [OperationalError].  A single connection is modelled, so [commit] has
    no effect that the methods can observe. *)

From Stdlib Require Import Ascii DecimalString.
From stdpp Require Import base option list sorting gmap strings.

Local Open Scope Z_scope.

(** ** Data *)

(** The five mutable columns of a [books] row.  [title] and [author] are
    NOT NULL and typed [str] in every method signature that writes them. *)
Record row := Row {
  title : string;
  author : string;
  year : option Z;
  isbn : option string;
  genre : option string
}.

Global Instance row_eq_dec : EqDecision row.
Proof. solve_decision. Defined.

(** A fetched tuple [(id, title, author, year, isbn, genre)]: the rowid and
    the five columns. *)
Abbreviation book := (Z * row)%type.

(** [book[0]] .. [book[5]] of a fetched tuple. *)
Definition book_id (b : book) : Z := b.1.
Definition book_title (b : book) : string := title b.2.
Definition book_author (b : book) : string := author b.2.
Definition book_year (b : book) : option Z := year b.2.
Definition book_isbn (b : book) : option string := isbn b.2.
Definition book_genre (b : book) : option string := genre b.2.

(** One element of a fetched tuple, as Python sees it. *)
Inductive pyval :=
  | PyNone
  | PyInt (z : Z)
  | PyStr (s : string).

Inductive column := ColTitle | ColAuthor | ColYear | ColIsbn | ColGenre.

(** The five columns of a row as Python values. *)
Definition field (c : column) (r : row) : pyval :=
  match c with
  | ColTitle => PyStr (title r)
  | ColAuthor => PyStr (author r)
  | ColYear => from_option PyInt PyNone (year r)
  | ColIsbn => from_option PyStr PyNone (isbn r)
  | ColGenre => from_option PyStr PyNone (genre r)
  end.

(** What a method call can touch: the table and its AUTOINCREMENT counter
    (the database), the connection's closed flag, the cursor's result set,
    [lastrowid] and [rowcount], and the console. *)
Record world := World {
  table : gmap Z row;
  sequence : Z;
  closed : bool;
  fetched : list book;
  lastrowid : Z;
  rowcount : Z;
  stdout : list string
}.

Inductive exn :=
  | IntegrityError (msg : string)
  | ProgrammingError (msg : string)
  | OverflowError (msg : string)
  | OperationalError (msg : string).

Inductive outcome (A : Type) :=
  | Returned (a : A)
  | Raised (e : exn).
Global Arguments Returned {A} a.
Global Arguments Raised {A} e.

(** ** The monad of method bodies: state plus exceptions *)

Definition M (A : Type) : Type := world → outcome A * world.

Global Instance M_ret : MRet M := λ A a w, (Returned a, w).

Global Instance M_bind : MBind M := λ A B k m w,
  match m w with
  | (Returned a, w') => k a w'
  | (Raised e, w') => (Raised e, w')
  end.

Definition raise {A} (e : exn) : M A := λ w, (Raised e, w).

(** [try: body  except <handler's exceptions>: handler].  The handler
    answers [None] for an exception it does not catch. *)
Definition try_except {A} (body : M A) (handler : exn → option (M A)) : M A := λ w,
  match body w with
  | (Returned a, w') => (Returned a, w')
  | (Raised e, w') =>
      match handler e with
      | Some h => h w'
      | None => (Raised e, w')
      end
  end.

(** [print(line)] *)
Definition print (line : string) : M unit := λ w,
  (Returned (),
   World (table w) (sequence w) (closed w) (fetched w) (lastrowid w) (rowcount w)
         (stdout w ++ [line])).

(** ** LIKE and ORDER BY *)

(** SQLite folds only ASCII letters when LIKE compares two characters. *)
Definition to_lower (c : Ascii.ascii) : Ascii.ascii :=
  let n := Ascii.nat_of_ascii c in
  if ((65 <=? n)%nat && (n <=? 90)%nat)%bool then Ascii.ascii_of_nat (n + 32) else c.

Definition same_letter (c d : Ascii.ascii) : bool :=
  bool_decide (to_lower c = to_lower d).

Definition is_percent (c : Ascii.ascii) : bool := bool_decide (c = "%"%char).
Definition is_underscore (c : Ascii.ascii) : bool := bool_decide (c = "_"%char).

(** The comparison of the LIKE routine on a pattern and a text, without
    ESCAPE: [%] stands for any run of characters, [_] for any one
    character, every other character for itself up to ASCII case. *)
Fixpoint like_match (p : string) : string → bool :=
  match p with
  | EmptyString => λ s, match s with EmptyString => true | _ => false end
  | String c p' =>
      if is_percent c then
        fix any_run (s : string) : bool :=
          like_match p' s ||
          match s with
          | EmptyString => false
          | String _ s' => any_run s'
          end
      else if is_underscore c then
        λ s, match s with
             | EmptyString => false
             | String _ s' => like_match p' s'
             end
      else
        λ s, match s with
             | EmptyString => false
             | String d s' => same_letter c d && like_match p' s'
             end
  end.

(** The routine is handed C strings: it reads the pattern and the text up
    to their first character of code 0. *)
Fixpoint c_str (s : string) : string :=
  match s with
  | EmptyString => EmptyString
  | String c s' => if bool_decide (c = "000"%char) then EmptyString else String c (c_str s')
  end.

(** [s LIKE p] *)
Definition like (p s : string) : bool := like_match (c_str p) (c_str s).

(** The length of a [str] in the bytes of its UTF-8 form, as the engine
    counts it: one byte for a character below 128, two for the others. *)
Definition utf8_bytes (c : Ascii.ascii) : Z :=
  if (Ascii.nat_of_ascii c <? 128)%nat then 1 else 2.

Fixpoint utf8_len (s : string) : Z :=
  match s with
  | EmptyString => 0
  | String c s' => utf8_bytes c + utf8_len s'
  end.

(** The LIKE routine refuses a pattern of more than 50000 bytes. *)
Definition pattern_too_long (p : string) : bool := bool_decide (50000 < utf8_len p).

(** An [int] that fits SQLite's 64-bit INTEGER. *)
Definition fits_int64 (z : Z) : bool := (- 2 ^ 63 <=? z) && (z <? 2 ^ 63).

Definition fits_int64_opt (o : option Z) : bool :=
  match o with
  | Some z => fits_int64 z
  | None => true
  end.

(** [ORDER BY title]: ascending in the BINARY collation.  SQL leaves the
    order of rows with equal titles open; the model sorts with a merge
    sort, and the theorems below only rely on the result being sorted and
    having the same rows. *)
Definition title_le (a b : book) : Prop := String.le (book_title a) (book_title b).

Global Instance title_le_dec : RelDecision title_le.
Proof. intros a b. unfold title_le. apply _. Defined.

Definition order_by_title (l : list book) : list book := merge_sort title_le l.

(** ** The statements, as SQLite runs them *)

Module Sqlite.

Definition closed_database : exn :=
  ProgrammingError "Cannot operate on a closed database.".

Definition unique_isbn_failed : exn :=
  IntegrityError "UNIQUE constraint failed: books.isbn".

Definition int_too_large : exn :=
  OverflowError "Python int too large to convert to SQLite INTEGER".

Definition pattern_too_complex : exn :=
  OperationalError "LIKE or GLOB pattern too complex".

(** Every call on a cursor or connection first checks that the
    connection is still open. *)
Definition check_connection : M unit := λ w,
  if closed w then raise closed_database w else (Returned (), w).

(** Binding an [int], or [None], to a [?] of a statement. *)
Definition bind_int (z : Z) : M unit := λ w,
  if fits_int64 z then (Returned (), w) else raise int_too_large w.

Definition bind_opt_int (o : option Z) : M unit :=
  match o with
  | Some z => bind_int z
  | None => mret ()
  end.

(** The cursor after a statement ran: its result set and [rowcount]. *)
Definition cursor_result (rs : list book) (rc : Z) : M unit := λ w,
  (Returned (),
   World (table w) (sequence w) (closed w) rs (lastrowid w) rc (stdout w)).

Definition write_table (t : gmap Z row) : M unit := λ w,
  (Returned (),
   World t (sequence w) (closed w) (fetched w) (lastrowid w) (rowcount w) (stdout w)).

Definition read_table : M (gmap Z row) := λ w, (Returned (table w), w).

(** [isbn TEXT UNIQUE]: a non-NULL isbn may be held by one row only;
    NULLs never conflict.  [self] is the row being rewritten by an
    UPDATE, which does not conflict with itself. *)
Definition holds_isbn (i : string) (self : option Z) (b : book) : bool :=
  bool_decide (book_isbn b = Some i) && negb (bool_decide (self = Some (book_id b))).

Definition unique_violation (new_isbn : option string) (self : option Z)
    (t : gmap Z row) : bool :=
  match new_isbn with
  | None => false
  | Some i => existsb (holds_isbn i self) (map_to_list t)
  end.

(** AUTOINCREMENT: one more than the largest rowid the table has ever
    held, which is the larger of the [sqlite_sequence] entry and the
    largest rowid present. *)
Definition max_rowid (t : gmap Z row) : Z :=
  foldr Z.max 0 (map_to_list t).*1.

Definition next_rowid (w : world) : Z := 1 + Z.max (sequence w) (max_rowid (table w)).

Definition check_unique (new_isbn : option string) (self : option Z) : M unit := λ w,
  if unique_violation new_isbn self (table w) then raise unique_isbn_failed w
  else (Returned (), w).

(** Store [r] under the next rowid and record that rowid in the
    AUTOINCREMENT counter and in the cursor's [lastrowid]. *)
Definition append_row (r : row) : M unit := λ w,
  let k := next_rowid w in
  (Returned (),
   World (<[k := r]> (table w)) k (closed w) (fetched w) k (rowcount w) (stdout w)).

(** [INSERT INTO books (title, author, year, isbn, genre) VALUES (?,?,?,?,?)] *)
Definition execute_insert (r : row) : M unit :=
  check_connection;;
  bind_opt_int (year r);;
  cursor_result [] (-1);;
  check_unique (isbn r) None;;
  append_row r;;
  cursor_result [] 1.

(** [SELECT * FROM books ORDER BY title] *)
Definition execute_select_all : M unit :=
  check_connection;;
  t ← read_table;
  cursor_result (order_by_title (map_to_list t)) (-1).

(** [SELECT * FROM books WHERE id = ?] *)
Definition execute_select_by_id (k : Z) : M unit :=
  check_connection;;
  bind_int k;;
  t ← read_table;
  cursor_result (match t !! k with Some r => [(k, r)] | None => [] end) (-1).

(** Running [title LIKE ? OR author LIKE ?] over the rows calls the LIKE
    routine with the first pattern on every title and with the second on
    the author of the rows whose title did not match; the statement fails
    when one of these calls gets a pattern that is too long.  On an empty
    table the routine is never called. *)
Definition like_fails (p1 p2 : string) (rows : list book) : bool :=
  match rows with
  | [] => false
  | _ =>
      pattern_too_long p1
      || (pattern_too_long p2 && existsb (λ b, negb (like p1 (book_title b))) rows)
  end.

Definition check_like (p1 p2 : string) (rows : list book) : M unit := λ w,
  if like_fails p1 p2 rows then raise pattern_too_complex w else (Returned (), w).

(** [SELECT * FROM books WHERE title LIKE ? OR author LIKE ? ORDER BY title] *)
Definition execute_select_like (p1 p2 : string) : M unit :=
  check_connection;;
  t ← read_table;
  check_like p1 p2 (map_to_list t);;
  cursor_result
    (order_by_title
       (filter (λ b, like p1 (book_title b) || like p2 (book_author b)) (map_to_list t)))
    (-1).

(** [SELECT * FROM books WHERE genre = ? ORDER BY title] *)
Definition execute_select_genre (g : string) : M unit :=
  check_connection;;
  t ← read_table;
  cursor_result (order_by_title (filter (λ b, book_genre b = Some g) (map_to_list t))) (-1).

(** [UPDATE books SET title = ?, author = ?, year = ?, isbn = ?, genre = ?
     WHERE id = ?] *)
Definition execute_update (r : row) (k : Z) : M unit :=
  check_connection;;
  bind_opt_int (year r);;
  bind_int k;;
  cursor_result [] (-1);;
  t ← read_table;
  match t !! k with
  | None => cursor_result [] 0
  | Some _ =>
      check_unique (isbn r) (Some k);;
      write_table (<[k := r]> t);;
      cursor_result [] 1
  end.

(** [DELETE FROM books WHERE id = ?] *)
Definition execute_delete (k : Z) : M unit :=
  check_connection;;
  bind_int k;;
  t ← read_table;
  match t !! k with
  | None => cursor_result [] 0
  | Some _ =>
      write_table (delete k t);;
      cursor_result [] 1
  end.

(** Take the next [n] rows of the result set, or all of them, off the
    cursor. *)
Definition take_fetched (n : option nat) : M (list book) := λ w,
  let k := from_option id (length (fetched w)) n in
  (Returned (take k (fetched w)),
   World (table w) (sequence w) (closed w) (drop k (fetched w)) (lastrowid w)
         (rowcount w) (stdout w)).

(** [cursor.fetchall()] *)
Definition fetchall : M (list book) :=
  check_connection;;
  take_fetched None.

(** [cursor.fetchone()] *)
Definition fetchone : M (option book) :=
  check_connection;;
  bs ← take_fetched (Some 1%nat);
  mret (head bs).

(** [conn.commit()] *)
Definition commit : M unit := check_connection.

(** [conn.close()]; closing twice is allowed. *)
Definition conn_close : M unit := λ w,
  (Returned (),
   World (table w) (sequence w) true (fetched w) (lastrowid w) (rowcount w) (stdout w)).

Definition get_lastrowid : M Z := λ w, (Returned (lastrowid w), w).
Definition get_rowcount : M Z := λ w, (Returned (rowcount w), w).

(** [sqlite3.connect(db_name)] followed by [conn.cursor()], on a database
    file holding table [t] with counter [s]; a new file is [connect ∅ 0]. *)
Definition connect (t : gmap Z row) (s : Z) : world :=
  World t s false [] 0 (-1) [].

End Sqlite.

(** ** The methods of [BookManager] *)

Module BookManager.
Import Sqlite.

(** [add_book(self, title, author, year=None, isbn=None, genre=None) -> int] *)
Definition add_book (title author : string) (year : option Z)
    (isbn genre : option string) : M Z :=
  try_except
    (execute_insert (Row title author year isbn genre);;
     commit;;
     get_lastrowid)
    (λ e, match e with
          | IntegrityError msg => Some (print ("Error: " +:+ msg);; mret (-1))
          | _ => None
          end).

(** [get_all_books(self)] *)
Definition get_all_books : M (list book) :=
  execute_select_all;;
  fetchall.

(** [get_book_by_id(self, book_id)] *)
Definition get_book_by_id (book_id : Z) : M (option book) :=
  execute_select_by_id book_id;;
  fetchone.

(** [search_books(self, search_term)] *)
Definition search_books (search_term : string) : M (list book) :=
  let search_pattern := "%" +:+ search_term +:+ "%" in
  execute_select_like search_pattern search_pattern;;
  fetchall.

(** [update_book(self, book_id, title=None, author=None, year=None,
    isbn=None, genre=None) -> bool].  An argument left out and one passed
    as [None] are the same call. *)
Definition update_book (book_id : Z) (title author : option string)
    (year : option Z) (isbn genre : option string) : M bool :=
  current_book ← get_book_by_id book_id;
  match current_book with
  | None => mret false
  | Some current_book =>
      let new_title := match title with Some x => x | None => book_title current_book end in
      let new_author := match author with Some x => x | None => book_author current_book end in
      let new_year := match year with Some x => Some x | None => book_year current_book end in
      let new_isbn := match isbn with Some x => Some x | None => book_isbn current_book end in
      let new_genre := match genre with Some x => Some x | None => book_genre current_book end in
      try_except
        (execute_update (Row new_title new_author new_year new_isbn new_genre) book_id;;
         commit;;
         n ← get_rowcount;
         mret (bool_decide (0 < n)))
        (λ e, match e with
              | IntegrityError msg => Some (print ("Error: " +:+ msg);; mret false)
              | _ => None
              end)
  end.

(** [delete_book(self, book_id) -> bool] *)
Definition delete_book (book_id : Z) : M bool :=
  execute_delete book_id;;
  commit;;
  n ← get_rowcount;
  mret (bool_decide (0 < n)).

(** [get_books_by_genre(self, genre)] *)
Definition get_books_by_genre (genre : string) : M (list book) :=
  execute_select_genre genre;;
  fetchall.

(** [close(self)]: [self.conn] is set by the constructor and a connection
    object is true, so the guard always passes. *)
Definition close : M unit := conn_close.

(** [BookManager(db_name)] on a database file holding [t] and [s]:
    [CREATE TABLE IF NOT EXISTS] keeps what is there. *)
Definition init (t : gmap Z row) (s : Z) : world := connect t s.

(** [__enter__(self)]: hands the manager itself to the block. *)
Definition __enter__ : M unit := mret ().

(** [__exit__(self, exc_type, exc_val, exc_tb)]: closes and returns [None],
    so an exception raised in the block is not suppressed. *)
Definition __exit__ : M unit := close.

(** The block of a [with] statement and its exit: [__exit__] runs whether
    the block returns or raises; an exception of the block is raised again
    after it, unless [__exit__] itself raises. *)
Definition block_then_exit {A} (body : M A) : M A := λ w,
  match body w with
  | (Returned a, w') => (__exit__;; mret a) w'
  | (Raised e, w') =>
      match __exit__ w' with
      | (Returned _, w'') => (Raised e, w'')
      | (Raised e', w'') => (Raised e', w'')
      end
  end.

(** [with manager: body] *)
Definition with_block {A} (body : M A) : M A :=
  __enter__;;
  block_then_exit body.

End BookManager.

(** ** The console helpers of main.py *)

Module Main.
Import BookManager.

(** [str(n)] for an [int]. *)
Definition str (n : Z) : string := NilZero.string_of_int (Z.to_int n).

(** [len(s)] for a [str]. *)
Definition len (s : string) : nat := String.length s.

(** [s * n] *)
Fixpoint times (s : string) (n : nat) : string :=
  match n with
  | O => ""
  | S n' => s +:+ times s n'
  end.

(** [s[:n]] *)
Definition slice_to (n : nat) (s : string) : string := String.substring 0 n s.

(** [f"{s:<n}"]: [s] followed by spaces up to width [n], never cut. *)
Definition ljust (n : nat) (s : string) : string := s +:+ times " " (n - len s).

Definition newline : string := String "010" "".

(** Python's truth test of an optional [int] and of an optional [str]:
    [None], [0] and the empty string are false. *)
Definition truthy_int (o : option Z) : bool :=
  match o with
  | Some z => negb (bool_decide (z = 0))
  | None => false
  end.

Definition truthy_str (o : option string) : bool :=
  match o with
  | Some s => negb (bool_decide (s = ""))
  | None => false
  end.

(** [x if x else 'N/A'] inside an f-string. *)
Definition int_or_na (o : option Z) : string :=
  match o with
  | Some z => if truthy_int o then str z else "N/A"
  | None => "N/A"
  end.

Definition str_or_na (o : option string) : string :=
  match o with
  | Some s => if truthy_str o then s else "N/A"
  | None => "N/A"
  end.

(** [for x in l: f(x)] *)
Fixpoint for_each {A} (l : list A) (f : A → M unit) : M unit :=
  match l with
  | [] => mret ()
  | x :: l' => f x;; for_each l' f
  end.


(** The shortened title and author of a table line. *)
Definition title_short (title : string) : string :=
  if bool_decide (30 < len title)%nat then slice_to 27 title +:+ "..." else title.

Definition author_short (author : string) : string :=
  if bool_decide (25 < len author)%nat then slice_to 22 author +:+ "..." else author.

(** One line of the table:
    [f"{book_id:<5} {title_short:<30} {author_short:<25} {year_str:<6} {genre_str:<12}"] *)
Definition table_line (book : book) : string :=
  let year_str := int_or_na (book_year book) in
  let genre_str := str_or_na (book_genre book) in
  ljust 5 (str (book_id book)) +:+ " " +:+
  ljust 30 (title_short (book_title book)) +:+ " " +:+
  ljust 25 (author_short (book_author book)) +:+ " " +:+
  ljust 6 year_str +:+ " " +:+
  ljust 12 genre_str.

Definition table_header : string :=
  ljust 5 "ID" +:+ " " +:+ ljust 30 "Title" +:+ " " +:+ ljust 25 "Author" +:+ " " +:+
  ljust 6 "Year" +:+ " " +:+ ljust 12 "Genre".

(** [print_all_books(books)] *)
Definition print_all_books (books : list book) : M unit :=
  match books with
  | [] => print "No books found."
  | _ =>
      print (newline +:+ times "=" 80);;
      print table_header;;
      print (times "=" 80);;
      for_each books (λ book, print (table_line book));;
      print (times "=" 80 +:+ newline)
  end.

(** The ten [(title, author, year, isbn, genre)] tuples of
    [populate_sample_data]; the two accented letters of the fifth author
    are the characters 237 and 225. *)
Definition sample_books : list (string * string * Z * string * string) :=
  [ ("To Kill a Mockingbird", "Harper Lee", 1960, "978-0061120084", "Fiction");
    ("1984", "George Orwell", 1949, "978-0451524935", "Dystopian");
    ("Pride and Prejudice", "Jane Austen", 1813, "978-0141439518", "Romance");
    ("The Great Gatsby", "F. Scott Fitzgerald", 1925, "978-0743273565", "Fiction");
    ("One Hundred Years of Solitude",
     "Gabriel Garc" +:+ String "237" ("a M" +:+ String "225" "rquez"),
     1967, "978-0060883287", "Magical Realism");
    ("The Catcher in the Rye", "J.D. Salinger", 1951, "978-0316769174", "Fiction");
    ("The Hobbit", "J.R.R. Tolkien", 1937, "978-0547928227", "Fantasy");
    ("Harry Potter and the Philosopher's Stone", "J.K. Rowling", 1997, "978-0439708180",
     "Fantasy");
    ("The Lord of the Rings", "J.R.R. Tolkien", 1954, "978-0544003415", "Fantasy");
    ("Animal Farm", "George Orwell", 1945, "978-0451526342", "Political Satire") ].

(** The loop of [populate_sample_data] over a list of tuples; the id that
    [add_book] returns is dropped. *)
Definition add_each (books : list (string * string * Z * string * string)) : M unit :=
  for_each books (λ '(title, author, year, isbn, genre),
    add_book title author (Some year) (Some isbn) (Some genre);; mret ()).

(** [populate_sample_data(manager)] *)
Definition populate_sample_data : M unit :=
  print "Populating database with sample books...";;
  add_each sample_books;;
  print ("Added " +:+ str (Z.of_nat (length sample_books)) +:+ " sample books." +:+ newline).

End Main.

(** ** Vocabulary of the statements *)

(** The UNIQUE check, read on the table. *)
Definition isbn_taken (new_isbn : option string) (self : option Z)
    (t : gmap Z row) : Prop :=
  ∃ i k r, new_isbn = Some i ∧ t !! k = Some r ∧ isbn r = Some i ∧ self ≠ Some k.

(** The cursor and console parts of a world replaced, the database kept. *)
Definition with_cursor (w : world) (rs : list book) (l rc : Z) (out : list string) : world :=
  World (table w) (sequence w) (closed w) rs l rc out.

(** The row written by [update_book]: [new_title] .. [new_genre]. *)
Definition merged (cur : row) (ti au : option string) (y : option Z)
    (i g : option string) : row :=
  Row (match ti with Some x => x | None => title cur end)
      (match au with Some x => x | None => author cur end)
      (match y with Some x => Some x | None => year cur end)
      (match i with Some x => Some x | None => isbn cur end)
      (match g with Some x => Some x | None => genre cur end).

(** The seven data operations as one interface. *)

(** A call of one of the data methods with its arguments. *)
Inductive call :=
  | AddBook (title author : string) (year : option Z) (isbn genre : option string)
  | GetAllBooks
  | GetBookById (book_id : Z)
  | SearchBooks (search_term : string)
  | UpdateBook (book_id : Z) (title author : option string) (year : option Z)
      (isbn genre : option string)
  | DeleteBook (book_id : Z)
  | GetBooksByGenre (genre : string).

(** What a call hands back to its caller. *)
Inductive answer :=
  | AnInt (z : Z)
  | ABool (b : bool)
  | ATuple (o : option book)
  | AList (l : list book).

Definition answering {A} (f : A → answer) (m : M A) : M answer := x ← m; mret (f x).

Definition perform (c : call) : M answer :=
  match c with
  | AddBook t a y i g => answering AnInt (BookManager.add_book t a y i g)
  | GetAllBooks => answering AList BookManager.get_all_books
  | GetBookById k => answering ATuple (BookManager.get_book_by_id k)
  | SearchBooks s => answering AList (BookManager.search_books s)
  | UpdateBook k t a y i g => answering ABool (BookManager.update_book k t a y i g)
  | DeleteBook k => answering ABool (BookManager.delete_book k)
  | GetBooksByGenre g => answering AList (BookManager.get_books_by_genre g)
  end.








(** Stores used in the examples. *)
Definition after {A} (m : M A) (w : world) : world := (m w).2.

Definition empty_store : world := BookManager.init ∅ 0.

Definition three_books : world :=
  after (BookManager.add_book "Harry Potter" "J.K. Rowling" (Some 1997) None None;;
         BookManager.add_book "The Hobbit" "J.R.R. Tolkien" (Some 1937) None None;;
         BookManager.add_book "1984" "George Orwell" (Some 1949) None None)
        empty_store.

Definition one_book : world :=
  after (BookManager.add_book "1984" "George Orwell" (Some 1949) (Some "978-0451524935")
           (Some "Dystopian"))
        empty_store.



(** Vocabulary of the further properties. *)

(** The state of the database and its connection, leaving out what the
    cursor and the console hold. *)
Definition same_database (w1 w2 : world) : Prop :=
  table w1 = table w2 ∧ sequence w1 = sequence w2 ∧ closed w1 = closed w2.

(** A caller making the calls of [cs] one after the other, going on after
    a call that raised. *)
Definition perform_all (cs : list call) (w : world) : world :=
  foldl (λ w c, (perform c w).2) w cs.

(** No two rows hold the same isbn: what [isbn TEXT UNIQUE] enforces on
    every database file. *)
Definition isbn_unique (t : gmap Z row) : Prop :=
  ∀ k1 k2 r1 r2 i,
    t !! k1 = Some r1 → t !! k2 = Some r2 →
    isbn r1 = Some i → isbn r2 = Some i → k1 = k2.

(** Every rowid of the table is a 64-bit integer, as in every database
    file. *)
Definition rowids_fit (t : gmap Z row) : Prop :=
  map_Forall (λ k _, fits_int64 k = true) t.

(** The calls that only read. *)
Definition is_query (c : call) : bool :=
  match c with
  | GetAllBooks | GetBookById _ | SearchBooks _ | GetBooksByGenre _ => true
  | _ => false
  end.

(** ** Facts about the backend *)

Section backend_facts.
Import Sqlite.

Global Instance title_le_trans : Transitive title_le.
Proof. intros a b c. unfold title_le. apply transitivity. Qed.

Global Instance title_le_total : Total title_le.
Proof. intros a b. unfold title_le. apply total, _. Qed.

Lemma order_by_title_sorted (l : list book) :
  StronglySorted title_le (order_by_title l).
Proof. apply StronglySorted_merge_sort; apply _. Qed.

Lemma order_by_title_perm (l : list book) : order_by_title l ≡ₚ l.
Proof. apply merge_sort_Permutation. Qed.

Lemma elem_of_order_by_title (b : book) (l : list book) :
  b ∈ order_by_title l ↔ b ∈ l.
Proof. by rewrite order_by_title_perm. Qed.

Lemma NoDup_order_by_title (l : list book) : NoDup l → NoDup (order_by_title l).
Proof. by rewrite order_by_title_perm. Qed.

Lemma order_by_title_nil : order_by_title [] = [].
Proof. reflexivity. Qed.

Lemma max_rowid_ge (t : gmap Z row) (k : Z) (r : row) :
  t !! k = Some r → k ≤ max_rowid t.
Proof.
  intros Hk. apply elem_of_map_to_list in Hk.
  unfold max_rowid. induction (map_to_list t) as [|[k' r'] l IH]; csimpl.
  - by apply elem_of_nil in Hk.
  - apply elem_of_cons in Hk as [[= <- <-]|Hk]; [lia|].
    specialize (IH Hk). lia.
Qed.


Lemma next_rowid_fresh (w : world) : table w !! next_rowid w = None.
Proof.
  destruct (table w !! next_rowid w) as [r|] eqn:Hk; [|done].
  apply max_rowid_ge in Hk. unfold next_rowid in Hk. lia.
Qed.


Lemma unique_violation_true new_isbn self t :
  unique_violation new_isbn self t = true ↔ isbn_taken new_isbn self t.
Proof.
  unfold unique_violation, isbn_taken. destruct new_isbn as [i|].
  - rewrite existsb_exists. split.
    + intros ([k r] & Hin & Hh). apply list_elem_of_In, elem_of_map_to_list in Hin.
      unfold holds_isbn, book_isbn, book_id in Hh. simpl in Hh.
      apply andb_true_iff in Hh as [H1 H2].
      apply bool_decide_eq_true in H1. apply negb_true_iff, bool_decide_eq_false in H2.
      by exists i, k, r.
    + intros (i' & k & r & [= <-] & Hk & Hi & Hs).
      exists (k, r). split; [by apply list_elem_of_In, elem_of_map_to_list|].
      unfold holds_isbn, book_isbn, book_id. simpl.
      apply andb_true_iff. split; [by apply bool_decide_eq_true|].
      by apply negb_true_iff, bool_decide_eq_false.
  - split; [done|]. by intros (? & ? & ? & ? & _).
Qed.

Lemma unique_violation_false new_isbn self t :
  unique_violation new_isbn self t = false ↔ ¬ isbn_taken new_isbn self t.
Proof. rewrite <- unique_violation_true. by destruct (unique_violation _ _ _). Qed.

End backend_facts.

(** ** The methods on an open and on a closed connection *)

Section method_equations.
Import Sqlite BookManager.

Ltac open_world w H :=
  destruct w as [t s c f l rc out]; simpl in H; subst c.

(** Run a method body on a world given by its constructor. *)
Ltac run :=
  cbv [add_book get_all_books get_book_by_id search_books update_book delete_book
       get_books_by_genre close
       execute_insert execute_select_all execute_select_by_id execute_select_like
       execute_select_genre execute_update execute_delete fetchall fetchone commit
       conn_close check_connection read_table cursor_result write_table check_unique
       bind_int bind_opt_int check_like
       append_row take_fetched get_lastrowid get_rowcount print try_except raise
       mbind M_bind mret M_ret with_cursor from_option
       book_id book_title book_author book_year book_isbn book_genre
       table sequence closed fetched lastrowid rowcount stdout
       title author year isbn genre];
  cbn [head take drop id fst snd].

Lemma get_all_books_open w :
  closed w = false →
  get_all_books w =
    (Returned (order_by_title (map_to_list (table w))),
     with_cursor w [] (lastrowid w) (-1) (stdout w)).
Proof.
  intros H. open_world w H. run. by rewrite take_ge, drop_ge by lia.
Qed.

Lemma get_book_by_id_open k w :
  closed w = false →
  fits_int64 k = true →
  get_book_by_id k w =
    (Returned (pair k <$> table w !! k), with_cursor w [] (lastrowid w) (-1) (stdout w)).
Proof.
  intros H Hk. open_world w H. run. rewrite Hk. by destruct (t !! k).
Qed.

Lemma get_book_by_id_overflow k w :
  closed w = false →
  fits_int64 k = false →
  get_book_by_id k w = (Raised int_too_large, w).
Proof.
  intros H Hk. open_world w H. run. by rewrite Hk.
Qed.

Lemma search_books_open term w :
  closed w = false →
  like_fails ("%" +:+ term +:+ "%") ("%" +:+ term +:+ "%") (map_to_list (table w)) = false →
  search_books term w =
    (Returned
       (order_by_title
          (filter (λ b, like ("%" +:+ term +:+ "%") (book_title b)
                        || like ("%" +:+ term +:+ "%") (book_author b))
                  (map_to_list (table w)))),
     with_cursor w [] (lastrowid w) (-1) (stdout w)).
Proof.
  intros H Hl. open_world w H. simpl in Hl. run. rewrite Hl.
  by rewrite take_ge, drop_ge by lia.
Qed.

Lemma search_books_too_complex term w :
  closed w = false →
  like_fails ("%" +:+ term +:+ "%") ("%" +:+ term +:+ "%") (map_to_list (table w)) = true →
  search_books term w = (Raised pattern_too_complex, w).
Proof.
  intros H Hl. open_world w H. simpl in Hl. run. by rewrite Hl.
Qed.

Lemma get_books_by_genre_open g w :
  closed w = false →
  get_books_by_genre g w =
    (Returned (order_by_title (filter (λ b, book_genre b = Some g) (map_to_list (table w)))),
     with_cursor w [] (lastrowid w) (-1) (stdout w)).
Proof.
  intros H. open_world w H. run. by rewrite take_ge, drop_ge by lia.
Qed.

Lemma add_book_open ti au y i g w :
  closed w = false →
  fits_int64_opt y = true →
  add_book ti au y i g w =
    if unique_violation i None (table w) then
      (Returned (-1),
       with_cursor w [] (lastrowid w) (-1)
         (stdout w ++ ["Error: UNIQUE constraint failed: books.isbn"]))
    else
      (Returned (next_rowid w),
       World (<[next_rowid w := Row ti au y i g]> (table w)) (next_rowid w) false []
             (next_rowid w) 1 (stdout w)).
Proof.
  intros H Hy. open_world w H. run.
  destruct y as [z|]; simpl in Hy; run; rewrite ?Hy; by destruct (unique_violation i None t).
Qed.

Lemma add_book_overflow ti au y i g w :
  closed w = false →
  fits_int64_opt y = false →
  add_book ti au y i g w = (Raised int_too_large, w).
Proof.
  intros H Hy. open_world w H. run.
  destruct y as [z|]; simpl in Hy; [|done]. run. by rewrite Hy.
Qed.

Lemma delete_book_open k w :
  closed w = false →
  fits_int64 k = true →
  delete_book k w =
    match table w !! k with
    | Some _ =>
        (Returned true,
         World (delete k (table w)) (sequence w) false [] (lastrowid w) 1 (stdout w))
    | None => (Returned false, with_cursor w [] (lastrowid w) 0 (stdout w))
    end.
Proof.
  intros H Hk. open_world w H. run. rewrite Hk. by destruct (t !! k).
Qed.

Lemma delete_book_overflow k w :
  closed w = false →
  fits_int64 k = false →
  delete_book k w = (Raised int_too_large, w).
Proof.
  intros H Hk. open_world w H. run. by rewrite Hk.
Qed.

Lemma update_book_open k ti au y i g w :
  closed w = false →
  fits_int64 k = true →
  update_book k ti au y i g w =
    match table w !! k with
    | None => (Returned false, with_cursor w [] (lastrowid w) (-1) (stdout w))
    | Some cur =>
        if fits_int64_opt (year (merged cur ti au y i g)) then
          if unique_violation (isbn (merged cur ti au y i g)) (Some k) (table w) then
            (Returned false,
             with_cursor w [] (lastrowid w) (-1)
               (stdout w ++ ["Error: UNIQUE constraint failed: books.isbn"]))
          else
            (Returned true,
             World (<[k := merged cur ti au y i g]> (table w)) (sequence w) false []
                   (lastrowid w) 1 (stdout w))
        else (Raised int_too_large, with_cursor w [] (lastrowid w) (-1) (stdout w))
    end.
Proof.
  intros H Hfit. open_world w H.
  unfold merged. run. rewrite Hfit.
  destruct (t !! k) as [[ct ca cy ci cg]|] eqn:Hk; [|done].
  run.
  destruct y as [z|]; [|destruct cy as [z|]]; cbn [fits_int64_opt];
    try (destruct (fits_int64 z); [|done]);
    rewrite ?Hfit, ?Hk; by destruct (unique_violation _ (Some k) t).
Qed.

Lemma update_book_overflow k ti au y i g w :
  closed w = false →
  fits_int64 k = false →
  update_book k ti au y i g w = (Raised int_too_large, w).
Proof.
  intros H Hk. open_world w H. run. by rewrite Hk.
Qed.

(** On a closed connection the first statement of every method raises,
    before anything is changed. *)
Ltac closed_world w H :=
  destruct w as [t s c f l rc out]; simpl in H; subst c; run; reflexivity.

Lemma add_book_closed ti au y i g w :
  closed w = true → add_book ti au y i g w = (Raised closed_database, w).
Proof. intros H. closed_world w H. Qed.

Lemma get_all_books_closed w :
  closed w = true → get_all_books w = (Raised closed_database, w).
Proof. intros H. closed_world w H. Qed.

Lemma get_book_by_id_closed k w :
  closed w = true → get_book_by_id k w = (Raised closed_database, w).
Proof. intros H. closed_world w H. Qed.

Lemma search_books_closed term w :
  closed w = true → search_books term w = (Raised closed_database, w).
Proof. intros H. closed_world w H. Qed.

Lemma update_book_closed k ti au y i g w :
  closed w = true → update_book k ti au y i g w = (Raised closed_database, w).
Proof. intros H. closed_world w H. Qed.

Lemma delete_book_closed k w :
  closed w = true → delete_book k w = (Raised closed_database, w).
Proof. intros H. closed_world w H. Qed.

Lemma get_books_by_genre_closed g w :
  closed w = true → get_books_by_genre g w = (Raised closed_database, w).
Proof. intros H. closed_world w H. Qed.

Lemma close_closes w : closed (close w).2 = true ∧ table (close w).2 = table w.
Proof. by destruct w. Qed.

End method_equations.

Lemma answering_eq {A} (f : A → answer) (m : M A) (w : world) :
  answering f m w =
    match m w with
    | (Returned a, w') => (Returned (f a), w')
    | (Raised e, w') => (Raised e, w')
    end.
Proof. reflexivity. Qed.

Lemma perform_closed (c : call) (w : world) :
  closed w = true → perform c w = (Raised Sqlite.closed_database, w).
Proof.
  intros H. destruct c; unfold perform; rewrite answering_eq.
  - by rewrite add_book_closed.
  - by rewrite get_all_books_closed.
  - by rewrite get_book_by_id_closed.
  - by rewrite search_books_closed.
  - by rewrite update_book_closed.
  - by rewrite delete_book_closed.
  - by rewrite get_books_by_genre_closed.
Qed.



Lemma like_fails_same (p : string) (t : gmap Z row) :
  Sqlite.like_fails p p (map_to_list t) = true ↔ t ≠ ∅ ∧ 50000 < utf8_len p.
Proof.
  unfold Sqlite.like_fails. rewrite <- (map_to_list_empty_iff t).
  destruct (map_to_list t) as [|b l]; [by split; [|intros []]|].
  unfold pattern_too_long. case_bool_decide as Hp; simpl.
  - by split.
  - split; [done|]. by intros [_ ?].
Qed.

(** Every method on an open connection, as one equation. *)
Lemma perform_open (c : call) (w : world) :
  closed w = false →
  perform c w =
    match c with
    | AddBook t a y i g =>
        if fits_int64_opt y then
          if Sqlite.unique_violation i None (table w) then
            (Returned (AnInt (-1)),
             with_cursor w [] (lastrowid w) (-1)
               (stdout w ++ ["Error: UNIQUE constraint failed: books.isbn"]))
          else
            (Returned (AnInt (Sqlite.next_rowid w)),
             World (<[Sqlite.next_rowid w := Row t a y i g]> (table w)) (Sqlite.next_rowid w)
                   false [] (Sqlite.next_rowid w) 1 (stdout w))
        else (Raised Sqlite.int_too_large, w)
    | GetAllBooks =>
        (Returned (AList (order_by_title (map_to_list (table w)))),
         with_cursor w [] (lastrowid w) (-1) (stdout w))
    | GetBookById k =>
        if fits_int64 k then
          (Returned (ATuple (pair k <$> table w !! k)),
           with_cursor w [] (lastrowid w) (-1) (stdout w))
        else (Raised Sqlite.int_too_large, w)
    | SearchBooks term =>
        if Sqlite.like_fails ("%" +:+ term +:+ "%") ("%" +:+ term +:+ "%")
             (map_to_list (table w))
        then (Raised Sqlite.pattern_too_complex, w)
        else
          (Returned
             (AList (order_by_title
                (filter (λ b, like ("%" +:+ term +:+ "%") (book_title b)
                              || like ("%" +:+ term +:+ "%") (book_author b))
                        (map_to_list (table w))))),
           with_cursor w [] (lastrowid w) (-1) (stdout w))
    | UpdateBook k t a y i g =>
        if fits_int64 k then
          match table w !! k with
          | None => (Returned (ABool false), with_cursor w [] (lastrowid w) (-1) (stdout w))
          | Some cur =>
              if fits_int64_opt (year (merged cur t a y i g)) then
                if Sqlite.unique_violation (isbn (merged cur t a y i g)) (Some k) (table w)
                then
                  (Returned (ABool false),
                   with_cursor w [] (lastrowid w) (-1)
                     (stdout w ++ ["Error: UNIQUE constraint failed: books.isbn"]))
                else
                  (Returned (ABool true),
                   World (<[k := merged cur t a y i g]> (table w)) (sequence w) false []
                         (lastrowid w) 1 (stdout w))
              else
                (Raised Sqlite.int_too_large, with_cursor w [] (lastrowid w) (-1) (stdout w))
          end
        else (Raised Sqlite.int_too_large, w)
    | DeleteBook k =>
        if fits_int64 k then
          match table w !! k with
          | Some _ =>
              (Returned (ABool true),
               World (delete k (table w)) (sequence w) false [] (lastrowid w) 1 (stdout w))
          | None => (Returned (ABool false), with_cursor w [] (lastrowid w) 0 (stdout w))
          end
        else (Raised Sqlite.int_too_large, w)
    | GetBooksByGenre g =>
        (Returned
           (AList (order_by_title
              (filter (λ b, book_genre b = Some g) (map_to_list (table w))))),
         with_cursor w [] (lastrowid w) (-1) (stdout w))
    end.
Proof.
  intros Hc. destruct c as [t a y i g| |k|s|k t a y i g|k|g];
    unfold perform; rewrite answering_eq.
  - destruct (fits_int64_opt y) eqn:Hy.
    + rewrite add_book_open by done. by destruct (Sqlite.unique_violation _ _ _).
    + by rewrite add_book_overflow.
  - by rewrite get_all_books_open.
  - destruct (fits_int64 k) eqn:Hk.
    + by rewrite get_book_by_id_open.
    + by rewrite get_book_by_id_overflow.
  - destruct (Sqlite.like_fails _ _ _) eqn:Hl.
    + by rewrite search_books_too_complex.
    + by rewrite search_books_open.
  - destruct (fits_int64 k) eqn:Hk.
    + rewrite update_book_open by done. destruct (table w !! k); [|done].
      destruct (fits_int64_opt _); [|done]. by destruct (Sqlite.unique_violation _ _ _).
    + by rewrite update_book_overflow.
  - destruct (fits_int64 k) eqn:Hk.
    + rewrite delete_book_open by done. by destruct (table w !! k).
    + by rewrite delete_book_overflow.
  - by rewrite get_books_by_genre_open.
Qed.

(** ** Rejected inserts (C1) *)

Section rejected_insert.
Import Sqlite BookManager.




End rejected_insert.

(** ** Updating an id that is not there (C3) *)

Section update_missing.
Import Sqlite BookManager.

(** C3: on an open store, [update_book] of an id (a 64-bit integer, as
    every rowid is) with no row returns [False] and leaves the table (every
    row), the AUTOINCREMENT counter and the console as they were, whatever
    the other arguments. *)
Theorem update_book_not_found (w : world) (k : Z) (ti au : option string)
    (y : option Z) (i g : option string) :
  closed w = false →
  fits_int64 k = true →
  table w !! k = None →
  (update_book k ti au y i g w).1 = Returned false
  ∧ table (update_book k ti au y i g w).2 = table w
  ∧ sequence (update_book k ti au y i g w).2 = sequence w
  ∧ stdout (update_book k ti au y i g w).2 = stdout w.
Proof. intros Hopen Hfit Hk. rewrite update_book_open by done. by rewrite Hk. Qed.

Lemma update_book_not_found_witness :
  (update_book 7 (Some "Updated Title") None (Some 2024) None None three_books).1
    = Returned false
  ∧ table (update_book 7 (Some "Updated Title") None (Some 2024) None None three_books).2
    = table three_books.
Proof.
  destruct (update_book_not_found three_books 7 (Some "Updated Title") None (Some 2024)
              None None eq_refl eq_refl) as (Hret & Htab & _).
  - by vm_compute.
  - split; [exact Hret|exact Htab].
Defined.

End update_missing.

(** ** Failures of the storage layer (C4, C5) *)

Section failures.
Import Sqlite BookManager.




(** C5: after [close()], each of the seven data methods, whatever its
    arguments, raises the backend's [ProgrammingError] ("Cannot operate on
    a closed database.") and leaves the store as [close()] left it, with
    the table that was there before [close()]. *)
Theorem perform_after_close (c : call) (w : world) :
  perform c (close w).2
    = (Raised (ProgrammingError "Cannot operate on a closed database."), (close w).2)
  ∧ table (perform c (close w).2).2 = table w.
Proof.
  pose proof (close_closes w) as [Hc Ht].
  rewrite perform_closed by done. done.
Qed.

End failures.

(** ** Partial update (C2, C10) *)

Section partial_update.
Import Sqlite BookManager.



(** C10: for a stored id and any arguments, the row is still stored after
    [update_book], and each of its five columns that held a value before
    the call holds a value after it: an argument passed as [None] is an
    argument left out, so no call sets a column back to NULL. *)
Theorem update_book_keeps_values (w : world) (k : Z) (cur : row)
    (ti au : option string) (y : option Z) (i g : option string) :
  table w !! k = Some cur →
  ∃ new : row,
    table (update_book k ti au y i g w).2 !! k = Some new
    ∧ ∀ c : column, field c cur ≠ PyNone → field c new ≠ PyNone.
Proof.
  intros Hk. destruct (closed w) eqn:Hc.
  { rewrite update_book_closed by done. by exists cur. }
  destruct (fits_int64 k) eqn:Hfit; [|rewrite update_book_overflow by done; by exists cur].
  rewrite update_book_open, Hk by done.
  destruct (fits_int64_opt _); [|by exists cur].
  destruct (unique_violation _ (Some k) (table w)).
  { by exists cur. }
  exists (merged cur ti au y i g). split; [apply lookup_insert_eq|].
  intros c. destruct c; simpl; [done|done|..].
  - destruct y; [done|]. by destruct (year cur).
  - destruct i; [done|]. by destruct (isbn cur).
  - destruct g; [done|]. by destruct (genre cur).
Qed.

Lemma update_book_keeps_values_witness :
  ∃ new : row,
    table (update_book 1 None None None None None one_book).2 !! 1 = Some new
    ∧ field ColYear new ≠ PyNone ∧ field ColIsbn new ≠ PyNone ∧ field ColGenre new ≠ PyNone.
Proof.
  destruct (update_book_keeps_values one_book 1
              (Row "1984" "George Orwell" (Some 1949) (Some "978-0451524935")
                   (Some "Dystopian"))
              None None None None None) as (new & Hnew & Hkeep).
  - by vm_compute.
  - exists new. split_and!; [exact Hnew|apply Hkeep; by simpl..].
Defined.

End partial_update.

(** ** Insert then read back (C7) *)

Section add_then_get.
Import Sqlite BookManager.



End add_then_get.

(** ** Ordered queries (C8, C9) *)

Section ordered_queries.
Import Sqlite BookManager.

(** C8: on an open store [get_all_books] returns every stored row, each
    once, in ascending order of title (titles compared character by
    character by code), and does not change the table; on an empty table it
    returns the empty list.  After adding "Harry Potter", "The Hobbit" and
    "1984" to a new store the titles come back as "1984", "Harry Potter",
    "The Hobbit". *)
Theorem get_all_books_ordered :
  (∀ w : world,
     closed w = false →
     ∃ bs : list book,
       (get_all_books w).1 = Returned bs
       ∧ (∀ k r, (k, r) ∈ bs ↔ table w !! k = Some r)
       ∧ NoDup bs
       ∧ StronglySorted title_le bs
       ∧ (table w = ∅ → bs = [])
       ∧ table (get_all_books w).2 = table w)
  ∧ (get_all_books empty_store).1 = Returned []
  ∧ (get_all_books three_books).1
    = Returned [(3, Row "1984" "George Orwell" (Some 1949) None None);
                (1, Row "Harry Potter" "J.K. Rowling" (Some 1997) None None);
                (2, Row "The Hobbit" "J.R.R. Tolkien" (Some 1937) None None)].
Proof.
  split_and!; [|by vm_compute..].
  intros w Hopen. rewrite get_all_books_open by done.
  exists (order_by_title (map_to_list (table w))). split_and!.
  - done.
  - intros k r. by rewrite elem_of_order_by_title, elem_of_map_to_list.
  - apply NoDup_order_by_title, NoDup_map_to_list.
  - apply order_by_title_sorted.
  - intros ->. by rewrite map_to_list_empty.
  - done.
Qed.

Lemma get_all_books_ordered_witness :
  ∃ bs : list book,
    (get_all_books three_books).1 = Returned bs
    ∧ StronglySorted title_le bs
    ∧ length bs = 3%nat.
Proof.
  destruct (proj1 get_all_books_ordered three_books eq_refl)
    as (bs & Hbs & _ & _ & Hsorted & _).
  exists bs. split_and!; [exact Hbs|exact Hsorted|].
  vm_compute in Hbs. injection Hbs as <-. reflexivity.
Defined.



End ordered_queries.


(** ** Search (C6) *)

Section like_facts.

Lemma append_nil (s : string) : "" +:+ s = s.
Proof. reflexivity. Qed.

Lemma append_cons (c : Ascii.ascii) (s t : string) :
  String c s +:+ t = String c (s +:+ t).
Proof. reflexivity. Qed.

Lemma like_percent (p s : string) :
  like_match (String "%" p) s =
    like_match p s || match s with
                | EmptyString => false
                | String _ s' => like_match (String "%" p) s'
                end.
Proof. by destruct s. Qed.


(** A leading [%] lets the rest of the pattern start anywhere. *)
Lemma like_percent_iff (p s : string) :
  like_match (String "%" p) s = true ↔ ∃ pre suf, s = pre +:+ suf ∧ like_match p suf = true.
Proof.
  induction s as [|d s IH]; rewrite like_percent, orb_true_iff.
  - split.
    + intros [H|H]; [|done]. by exists "", "".
    + intros (pre & suf & Hs & H). destruct pre; [|done].
      rewrite append_nil in Hs. subst suf. by left.
  - rewrite IH. split.
    + intros [H|(pre & suf & -> & H)].
      * by exists "", (String d s).
      * by exists (String d pre), suf.
    + intros (pre & suf & Hs & H). destruct pre as [|d' pre].
      * rewrite append_nil in Hs. subst suf. by left.
      * rewrite append_cons in Hs. injection Hs as -> ->. right. by exists pre, suf.
Qed.

Lemma like_percent_any (s : string) : like_match "%" s = true.
Proof. apply like_percent_iff. exists s, "". split; [|done]. induction s; [done|].
  rewrite append_cons. by f_equal. Qed.



(** The C string of a text: what precedes its first character of code 0. *)
Lemma c_str_idemp (s : string) : c_str (c_str s) = c_str s.
Proof.
  induction s as [|c s IH]; [done|]. simpl.
  case_bool_decide as Hc; [done|]. simpl. by rewrite bool_decide_eq_false_2, IH.
Qed.




End like_facts.

Section search.
Import Sqlite BookManager.



End search.

(** ** What a call does to the database *)

Section database_effects.
Import Sqlite BookManager.

(** The table after a call on an open connection. *)
Lemma perform_open_table (c : call) (w : world) :
  closed w = false →
  table (perform c w).2 =
    match c with
    | AddBook t a y i g =>
        if fits_int64_opt y && negb (unique_violation i None (table w))
        then <[next_rowid w := Row t a y i g]> (table w)
        else table w
    | UpdateBook k t a y i g =>
        match table w !! k with
        | Some cur =>
            if fits_int64 k && fits_int64_opt (year (merged cur t a y i g))
               && negb (unique_violation (isbn (merged cur t a y i g)) (Some k) (table w))
            then <[k := merged cur t a y i g]> (table w)
            else table w
        | None => table w
        end
    | DeleteBook k => if fits_int64 k then delete k (table w) else table w
    | _ => table w
    end.
Proof.
  intros Hc. rewrite perform_open by done.
  destruct c as [t a y i g| |k|s|k t a y i g|k|g]; try done.
  - destruct (fits_int64_opt y); [|done]. by destruct (unique_violation _ _ _).
  - by destruct (fits_int64 k).
  - by destruct (like_fails _ _ _).
  - destruct (fits_int64 k); [|by destruct (table w !! k)].
    destruct (table w !! k); [|done].
    destruct (fits_int64_opt _); [|done]. by destruct (unique_violation _ _ _).
  - destruct (fits_int64 k); [|done].
    destruct (table w !! k) eqn:Hk; cbn [snd table with_cursor]; [done|].
    by rewrite delete_id.
Qed.

(** The AUTOINCREMENT counter after a call on an open connection. *)
Lemma perform_open_sequence (c : call) (w : world) :
  closed w = false →
  sequence (perform c w).2 =
    match c with
    | AddBook t a y i g =>
        if fits_int64_opt y && negb (unique_violation i None (table w))
        then next_rowid w else sequence w
    | _ => sequence w
    end.
Proof.
  intros Hc. rewrite perform_open by done.
  destruct c as [t a y i g| |k|s|k t a y i g|k|g]; try done.
  - destruct (fits_int64_opt y); [|done]. by destruct (unique_violation _ _ _).
  - by destruct (fits_int64 k).
  - by destruct (like_fails _ _ _).
  - destruct (fits_int64 k); [|done]. destruct (table w !! k); [|done].
    destruct (fits_int64_opt _); [|done]. by destruct (unique_violation _ _ _).
  - destruct (fits_int64 k); [|done]. by destruct (table w !! k).
Qed.

Lemma perform_keeps_closed (c : call) (w : world) :
  closed (perform c w).2 = closed w.
Proof.
  destruct (closed w) eqn:Hc; [by rewrite perform_closed|].
  rewrite perform_open by done.
  destruct c as [t a y i g| |k|s|k t a y i g|k|g]; try done.
  - destruct (fits_int64_opt y); [|done]. by destruct (unique_violation _ _ _).
  - by destruct (fits_int64 k).
  - by destruct (like_fails _ _ _).
  - destruct (fits_int64 k); [|done]. destruct (table w !! k); [|done].
    destruct (fits_int64_opt _); [|done]. by destruct (unique_violation _ _ _).
  - destruct (fits_int64 k); [|done]. by destruct (table w !! k).
Qed.

Lemma isbn_taken_weaken (i : option string) (k : Z) (t : gmap Z row) :
  isbn_taken i (Some k) t → isbn_taken i None t.
Proof. intros (x & k' & r & ? & ? & ? & _). by exists x, k', r. Qed.

Lemma isbn_unique_empty : isbn_unique ∅.
Proof. intros k1 k2 r1 r2 i H. by rewrite lookup_empty in H. Qed.

Lemma isbn_unique_insert (t : gmap Z row) (k : Z) (r : row) :
  isbn_unique t → ¬ isbn_taken (isbn r) (Some k) t → isbn_unique (<[k := r]> t).
Proof.
  intros Hu Hfree k1 k2 r1 r2 i H1 H2 Hi1 Hi2.
  apply lookup_insert_Some in H1 as [[<- <-]|[Hne1 H1]];
    apply lookup_insert_Some in H2 as [[<- <-]|[Hne2 H2]].
  - done.
  - destruct Hfree. exists i, k2, r2. split_and!; [done..|congruence].
  - destruct Hfree. exists i, k1, r1. split_and!; [done..|congruence].
  - by apply (Hu k1 k2 r1 r2 i).
Qed.

Lemma isbn_unique_delete (t : gmap Z row) (k : Z) :
  isbn_unique t → isbn_unique (delete k t).
Proof.
  intros Hu k1 k2 r1 r2 i H1 H2.
  apply lookup_delete_Some in H1 as [_ H1]. apply lookup_delete_Some in H2 as [_ H2].
  by apply (Hu k1 k2 r1 r2 i).
Qed.

Lemma perform_keeps_isbn_unique (c : call) (w : world) :
  isbn_unique (table w) → isbn_unique (table (perform c w).2).
Proof.
  intros Hu. destruct (closed w) eqn:Hc; [by rewrite perform_closed|].
  rewrite perform_open_table by done.
  destruct c as [t a y i g| |k|s|k t a y i g|k|g]; try done.
  - destruct (fits_int64_opt y); [|done].
    destruct (unique_violation i None (table w)) eqn:Hv; [done|]. cbn [andb negb].
    apply isbn_unique_insert; [done|]. simpl.
    intros Ht%isbn_taken_weaken. by apply unique_violation_false in Hv.
  - destruct (table w !! k) as [cur|]; [|done].
    destruct (fits_int64 k); [|done]. destruct (fits_int64_opt _); [|done].
    destruct (unique_violation _ (Some k) (table w)) eqn:Hv; [done|]. cbn [andb negb].
    apply isbn_unique_insert; [done|]. by apply unique_violation_false.
  - destruct (fits_int64 k); [|done]. by apply isbn_unique_delete.
Qed.

Lemma perform_sequence_mono (c : call) (w : world) :
  sequence w ≤ sequence (perform c w).2.
Proof.
  destruct (closed w) eqn:Hc; [by rewrite perform_closed|].
  rewrite perform_open_sequence by done. destruct c; try done.
  destruct (_ && _); [|done]. unfold next_rowid. lia.
Qed.

Lemma perform_all_sequence_mono (cs : list call) (w : world) :
  sequence w ≤ sequence (perform_all cs w).
Proof.
  revert w. induction cs as [|c cs IH]; intros w; simpl; [done|].
  etrans; [apply (perform_sequence_mono c)|apply IH].
Qed.

(** An answer of [add_book] other than -1 is the rowid it has just
    stored. *)
Lemma add_book_returned (ti au : string) (y : option Z) (i g : option string)
    (w : world) (k : Z) :
  (add_book ti au y i g w).1 = Returned k → k ≠ -1 →
  closed w = false ∧ k = next_rowid w ∧ sequence (add_book ti au y i g w).2 = k.
Proof.
  intros Hk Hne. destruct (closed w) eqn:Hc.
  { by rewrite add_book_closed in Hk. }
  destruct (fits_int64_opt y) eqn:Hy; [|by rewrite add_book_overflow in Hk].
  rewrite add_book_open in Hk |- * by done.
  destruct (unique_violation _ _ _); simpl in *; [congruence|].
  by injection Hk as <-.
Qed.

End database_effects.

(** ** Invariants of the store *)

Section store_invariants.
Import Sqlite BookManager.

(** Whatever calls are made, in whatever order and whether they succeed or
    not, a table in which no two rows share an isbn stays such a table. *)
Theorem isbn_unique_kept (cs : list call) (w : world) :
  isbn_unique (table w) → isbn_unique (table (perform_all cs w)).
Proof.
  revert w. induction cs as [|c cs IH]; intros w Hu; simpl; [done|].
  by apply IH, perform_keeps_isbn_unique.
Qed.

Lemma isbn_unique_kept_witness :
  isbn_unique
    (table (perform_all
              [AddBook "1984" "George Orwell" (Some 1949) (Some "978-0451524935") None;
               AddBook "Animal Farm" "George Orwell" (Some 1945) (Some "978-0451524935") None;
               UpdateBook 1 None None None (Some "978-0451526342") None;
               AddBook "Animal Farm" "George Orwell" (Some 1945) (Some "978-0451524935") None;
               UpdateBook 2 None None None (Some "978-0451526342") None;
               DeleteBook 1]
              empty_store)).
Proof. apply isbn_unique_kept. exact isbn_unique_empty. Defined.

(** Ids are handed out in increasing order and never again: if [add_book]
    returned the id [k], then after any further calls (deletions included)
    an [add_book] that returns an id returns one greater than [k]. *)
Theorem add_book_ids_increase (w : world) (cs : list call)
    (ti au ti' au' : string) (y y' : option Z) (i g i' g' : option string) (k k' : Z) :
  (add_book ti au y i g w).1 = Returned k → k ≠ -1 →
  (add_book ti' au' y' i' g' (perform_all cs (add_book ti au y i g w).2)).1 = Returned k' →
  k' ≠ -1 →
  k < k'.
Proof.
  intros Hk Hne Hk' Hne'.
  apply add_book_returned in Hk as (_ & _ & Hseq); [|done].
  apply add_book_returned in Hk' as (_ & -> & _); [|done].
  pose proof (perform_all_sequence_mono cs (add_book ti au y i g w).2) as Hmono.
  unfold next_rowid. lia.
Qed.

Lemma add_book_ids_increase_witness :
  (add_book "To Delete" "Author" (Some 2000) None None empty_store).1 = Returned 1
  ∧ (add_book "Next" "Author" None None None
       (perform_all [DeleteBook 1]
          (add_book "To Delete" "Author" (Some 2000) None None empty_store).2)).1
    = Returned 2
  ∧ 1 < 2.
Proof.
  split_and!; [by vm_compute..|].
  apply (add_book_ids_increase empty_store [DeleteBook 1] "To Delete" "Author" "Next" "Author"
           (Some 2000) None None None None None 1 2); by vm_compute.
Defined.

(** [delete_book] on an open store, for an id that fits 64 bits, returns
    [True] exactly when the id was stored; afterwards the id is not stored,
    [get_book_by_id] of it returns [None], every other row is as before,
    and the AUTOINCREMENT counter and the console are unchanged.  For an
    id that does not fit, the driver raises [OverflowError] and nothing
    changes. *)
Theorem delete_book_removes (w : world) (k : Z) :
  closed w = false →
  (fits_int64 k = true →
     (delete_book k w).1 = Returned (bool_decide (is_Some (table w !! k)))
     ∧ table (delete_book k w).2 !! k = None
     ∧ (∀ j, j ≠ k → table (delete_book k w).2 !! j = table w !! j)
     ∧ (get_book_by_id k (delete_book k w).2).1 = Returned None
     ∧ sequence (delete_book k w).2 = sequence w
     ∧ stdout (delete_book k w).2 = stdout w)
  ∧ (fits_int64 k = false →
     delete_book k w
     = (Raised (OverflowError "Python int too large to convert to SQLite INTEGER"), w)).
Proof.
  intros Hc. split; [|by apply delete_book_overflow].
  intros Hfit. rewrite delete_book_open by done.
  destruct (table w !! k) as [r|] eqn:Hk; cbn [fst snd table sequence stdout with_cursor].
  - split_and!.
    + by rewrite bool_decide_eq_true_2.
    + apply lookup_delete_eq.
    + intros j Hj. by apply lookup_delete_ne.
    + rewrite get_book_by_id_open by done. cbn [fst table]. by rewrite lookup_delete_eq.
    + done.
    + done.
  - split_and!.
    + rewrite bool_decide_eq_false_2; [done|]. by intros [? ?].
    + done.
    + done.
    + rewrite get_book_by_id_open by done. cbn [fst table with_cursor]. by rewrite Hk.
    + done.
    + done.
Qed.

Lemma delete_book_removes_witness :
  (delete_book 1 three_books).1 = Returned true
  ∧ (get_book_by_id 1 (delete_book 1 three_books).2).1 = Returned None
  ∧ table (delete_book 1 three_books).2 !! 2 = table three_books !! 2
  ∧ (delete_book (- 2 ^ 63 - 1) three_books).1
    = Raised (OverflowError "Python int too large to convert to SQLite INTEGER").
Proof.
  destruct (delete_book_removes three_books 1 eq_refl) as [Hin _].
  destruct (Hin eq_refl) as (Hret & _ & Hother & Hget & _).
  destruct (delete_book_removes three_books (- 2 ^ 63 - 1) eq_refl) as [_ Hout].
  split_and!; [exact Hret|exact Hget|by apply Hother|by rewrite (Hout eq_refl)].
Defined.



End store_invariants.

(** ** Reading the store *)

Section reading.
Import Sqlite BookManager.

Lemma perform_ignores_cursor (c : call) (w1 w2 : world) :
  same_database w1 w2 →
  (perform c w1).1 = (perform c w2).1
  ∧ same_database (perform c w1).2 (perform c w2).2.
Proof.
  intros (Ht & Hs & Hc). unfold same_database.
  rewrite !perform_keeps_closed.
  destruct (closed w1) eqn:Hc1; symmetry in Hc.
  { by rewrite !perform_closed. }
  rewrite !perform_open_table, !perform_open_sequence by done.
  assert (next_rowid w1 = next_rowid w2) as Hn.
  { unfold next_rowid. by rewrite Ht, Hs. }
  rewrite Ht, Hs, Hn. split; [|done].
  rewrite !perform_open by done. rewrite Ht, Hn.
  destruct c as [t a y i g| |k|s|k t a y i g|k|g]; try done.
  - destruct (fits_int64_opt y); [|done]. by destruct (unique_violation _ _ _).
  - by destruct (fits_int64 k).
  - by destruct (like_fails _ _ _).
  - destruct (fits_int64 k); [|done]. destruct (table w2 !! k); [|done].
    destruct (fits_int64_opt _); [|done]. by destruct (unique_violation _ _ _).
  - destruct (fits_int64 k); [|done]. by destruct (table w2 !! k).
Qed.

Lemma perform_query_same_database (c : call) (w : world) :
  is_query c = true → same_database (perform c w).2 w.
Proof.
  intros Hq. unfold same_database. rewrite perform_keeps_closed.
  destruct (closed w) eqn:Hc; [by rewrite perform_closed|].
  rewrite perform_open_table, perform_open_sequence by done.
  by destruct c.
Qed.

Lemma perform_query_stdout (c : call) (w : world) :
  is_query c = true → stdout (perform c w).2 = stdout w.
Proof.
  intros Hq. destruct (closed w) eqn:Hc; [by rewrite perform_closed|].
  rewrite perform_open by done.
  destruct c as [t a y i g| |k|s|k t a y i g|k|g]; try done.
  - by destruct (fits_int64 k).
  - by destruct (like_fails _ _ _).
Qed.

Lemma perform_all_queries_same_database (cs : list call) (w : world) :
  forallb is_query cs = true → same_database (perform_all cs w) w.
Proof.
  revert w. induction cs as [|c cs IH]; intros w Hq; simpl in *.
  { done. }
  apply andb_true_iff in Hq as [Hc Hcs].
  destruct (IH (perform c w).2 Hcs) as (Ht & Hs & Hcl).
  destruct (perform_query_same_database c w Hc) as (Ht' & Hs' & Hcl').
  unfold same_database. split_and!; congruence.
Qed.

(** The answer of a call and what it does to the database depend on the
    table, the AUTOINCREMENT counter and the closed flag only: what
    earlier calls left in the cursor (result set, [lastrowid], [rowcount])
    or on the console plays no part. *)
Theorem answers_depend_on_database (c : call) (w1 w2 : world) :
  table w1 = table w2 → sequence w1 = sequence w2 → closed w1 = closed w2 →
  (perform c w1).1 = (perform c w2).1
  ∧ table (perform c w1).2 = table (perform c w2).2
  ∧ sequence (perform c w1).2 = sequence (perform c w2).2
  ∧ closed (perform c w1).2 = closed (perform c w2).2.
Proof.
  intros Ht Hs Hc.
  destruct (perform_ignores_cursor c w1 w2) as (Ha & Ht' & Hs' & Hc'); done.
Qed.

Lemma answers_depend_on_database_witness :
  (perform (UpdateBook 1 None None (Some 1998) None None) three_books).1
  = (perform (UpdateBook 1 None None (Some 1998) None None)
       ((print "some line";; Sqlite.cursor_result (map_to_list (table three_books)) 7)
          three_books).2).1.
Proof.
  apply (answers_depend_on_database (UpdateBook 1 None None (Some 1998) None None)
           three_books
           ((print "some line";; Sqlite.cursor_result (map_to_list (table three_books)) 7)
              three_books).2); reflexivity.
Defined.

(** The four reading methods change neither the table, nor the
    AUTOINCREMENT counter, nor the console, on an open or on a closed
    connection; so a reading call gives the same answer after any run of
    reading calls as before it. *)
Theorem queries_read_only (c : call) (cs : list call) (w : world) :
  is_query c = true → forallb is_query cs = true →
  table (perform c w).2 = table w
  ∧ sequence (perform c w).2 = sequence w
  ∧ stdout (perform c w).2 = stdout w
  ∧ (perform c (perform_all cs w)).1 = (perform c w).1.
Proof.
  intros Hc Hcs.
  destruct (perform_query_same_database c w Hc) as (Ht & Hs & _).
  split_and!; [done|done|by apply perform_query_stdout|].
  by apply perform_ignores_cursor, perform_all_queries_same_database.
Qed.

Lemma queries_read_only_witness :
  table (perform (SearchBooks "Harry") three_books).2 = table three_books
  ∧ (perform (GetBookById 2)
       (perform_all [GetAllBooks; SearchBooks "o"; GetBooksByGenre "Fantasy"] three_books)).1
    = (perform (GetBookById 2) three_books).1.
Proof.
  split.
  - apply (queries_read_only (SearchBooks "Harry") [] three_books); reflexivity.
  - apply (queries_read_only (GetBookById 2)
             [GetAllBooks; SearchBooks "o"; GetBooksByGenre "Fantasy"] three_books);
      reflexivity.
Defined.

(** The reading methods agree with each other on an open store whose
    rowids are 64-bit integers: [get_all_books] lists no id twice; a tuple
    is in its list exactly when [get_book_by_id] of the tuple's id returns
    that tuple; an id that fits 64 bits is answered [None] exactly when no
    listed tuple has it; and whatever [search_books] and
    [get_books_by_genre] return is in that list. *)
Theorem queries_agree (w : world) :
  closed w = false →
  rowids_fit (table w) →
  ∃ all : list book,
    (get_all_books w).1 = Returned all
    ∧ NoDup (book_id <$> all)
    ∧ (∀ b, b ∈ all ↔ (get_book_by_id (book_id b) w).1 = Returned (Some b))
    ∧ (∀ k, fits_int64 k = true →
            (get_book_by_id k w).1 = Returned None ↔ ∀ b, b ∈ all → book_id b ≠ k)
    ∧ (∀ term bs, (search_books term w).1 = Returned bs → bs ⊆ all)
    ∧ (∀ g bs, (get_books_by_genre g w).1 = Returned bs → bs ⊆ all).
Proof.
  intros Hc Hfit. rewrite get_all_books_open by done. eexists. split_and!.
  - done.
  - rewrite order_by_title_perm. apply NoDup_fst_map_to_list.
  - intros [k r]. rewrite elem_of_order_by_title, elem_of_map_to_list.
    unfold book_id. cbn [fst]. destruct (fits_int64 k) eqn:Hk.
    + rewrite get_book_by_id_open by done. simpl.
      destruct (table w !! k) as [r'|]; simpl; split; congruence.
    + rewrite get_book_by_id_overflow by done. simpl. split; [|done].
      intros Hin. apply Hfit in Hin. congruence.
  - intros k Hk. rewrite get_book_by_id_open by done. simpl. split.
    + intros Hn [k' r] Hin%elem_of_order_by_title%elem_of_map_to_list <-.
      unfold book_id in Hn. simpl in Hn. by rewrite Hin in Hn.
    + intros Hall. destruct (table w !! k) as [r|] eqn:Hkr; [|done].
      destruct (Hall (k, r)); [|done].
      by apply elem_of_order_by_title, elem_of_map_to_list.
  - intros term bs Hbs b.
    destruct (like_fails ("%" +:+ term +:+ "%") ("%" +:+ term +:+ "%")
                (map_to_list (table w))) eqn:Hl.
    + by rewrite search_books_too_complex in Hbs.
    + rewrite search_books_open in Hbs by done. injection Hbs as <-.
      rewrite !elem_of_order_by_title, list_elem_of_filter. tauto.
  - intros g bs. rewrite get_books_by_genre_open by done. intros [= <-] b.
    rewrite !elem_of_order_by_title, list_elem_of_filter. tauto.
Qed.

Lemma queries_agree_witness :
  ∃ all : list book,
    (get_all_books three_books).1 = Returned all
    ∧ ((2, Row "The Hobbit" "J.R.R. Tolkien" (Some 1937) None None) ∈ all)
    ∧ (∀ b, b ∈ all → book_id b ≠ 9).
Proof.
  destruct (queries_agree three_books eq_refl) as (all & Hall & _ & Hin & Hnone & _).
  { apply (bool_decide_unpack _). by vm_compute. }
  exists all. split_and!; [exact Hall|by apply Hin|by apply (Hnone 9)].
Defined.

End reading.

(** ** More on partial update *)

Section update_more.
Import Sqlite BookManager.

Lemma merged_twice (cur : row) (ti au : option string) (y : option Z) (i g : option string) :
  merged (merged cur ti au y i g) ti au y i g = merged cur ti au y i g.
Proof. by destruct ti, au, y, i, g. Qed.


Lemma isbn_taken_insert_self (i : option string) (k : Z) (r : row) (t : gmap Z row) :
  isbn_taken i (Some k) (<[k := r]> t) ↔ isbn_taken i (Some k) t.
Proof.
  split; intros (x & k' & r' & Hi & Hk & Hr & Hne); exists x, k', r';
    (split_and!; [done| |done|done]).
  - rewrite lookup_insert_ne in Hk; [done|congruence].
  - rewrite lookup_insert_ne; [done|congruence].
Qed.




(** Making the same [update_book] call twice in a row gives the answer of
    the first call again and changes nothing more, on any store. *)
Theorem update_book_twice (w : world) (k : Z) (ti au : option string)
    (y : option Z) (i g : option string) :
  (update_book k ti au y i g (update_book k ti au y i g w).2).1
  = (update_book k ti au y i g w).1
  ∧ table (update_book k ti au y i g (update_book k ti au y i g w).2).2
    = table (update_book k ti au y i g w).2.
Proof.
  destruct (closed w) eqn:Hc.
  { rewrite (update_book_closed k ti au y i g w Hc). cbn [fst snd].
    by rewrite (update_book_closed k ti au y i g w Hc). }
  destruct (fits_int64 k) eqn:Hfit.
  2:{ rewrite (update_book_overflow k ti au y i g w Hc Hfit). cbn [fst snd].
      by rewrite (update_book_overflow k ti au y i g w Hc Hfit). }
  rewrite (update_book_open k ti au y i g w) by done.
  destruct (table w !! k) as [cur|] eqn:Hk.
  - destruct (fits_int64_opt (year (merged cur ti au y i g))) eqn:Hy.
    + destruct (unique_violation _ (Some k) (table w)) eqn:Hv.
      * rewrite update_book_open by (simpl; done). cbn [fst snd table with_cursor].
        by rewrite Hk, Hy, Hv.
      * rewrite update_book_open by (simpl; done). cbn [fst snd table].
        rewrite lookup_insert_eq, merged_twice, Hy.
        assert (unique_violation (isbn (merged cur ti au y i g)) (Some k)
                  (<[k := merged cur ti au y i g]> (table w)) = false) as ->.
        { apply unique_violation_false. rewrite isbn_taken_insert_self.
          by apply unique_violation_false. }
        cbn [fst snd table]. by rewrite insert_insert_eq.
    + rewrite update_book_open by (simpl; done). cbn [fst snd table with_cursor].
      by rewrite Hk, Hy.
  - rewrite update_book_open by (simpl; done). cbn [fst snd table with_cursor]. by rewrite Hk.
Qed.

End update_more.

(** ** More on search *)

Section search_more.
Import Sqlite BookManager.

Lemma filter_all {A} (P : A → Prop) `{∀ x, Decision (P x)} (l : list A) :
  (∀ x, P x) → filter P l = l.
Proof.
  intros HP. induction l as [|x l IH]; [done|].
  rewrite filter_cons_True by done. by rewrite IH.
Qed.

















Lemma like_percent_percent (s : string) : like "%%" s = true.
Proof.
  unfold like. change (c_str "%%") with "%%".
  apply like_percent_iff. exists "", (c_str s). split; [done|apply like_percent_any].
Qed.


(** Searching for the empty string is listing everything: [search_books("")]
    and [get_all_books()] give the same answer and leave the same state. *)
Theorem search_books_empty_term (w : world) :
  search_books "" w = get_all_books w.
Proof.
  destruct (closed w) eqn:Hc.
  { by rewrite search_books_closed, get_all_books_closed. }
  assert (like_fails ("%" +:+ "" +:+ "%") ("%" +:+ "" +:+ "%") (map_to_list (table w))
          = false) as Hl.
  { destruct (like_fails _ _ _) eqn:Hl; [|done].
    apply like_fails_same in Hl as [_ Hl]. by vm_compute in Hl. }
  rewrite search_books_open, get_all_books_open by done.
  rewrite filter_all; [done|].
  intros b. change ("%" +:+ "" +:+ "%") with "%%". by rewrite like_percent_percent.
Qed.



End search_more.

(** ** The [with] statement *)

Section context_manager.
Import Sqlite BookManager.

(** A [with] block hands on what its body returned or raised, keeps the
    table, counter and console as the body left them, and leaves the
    connection closed on both paths; every data call after the block
    raises the closed-database error. *)
Theorem with_block_closes {A} (body : M A) (w : world) :
  (with_block body w).1 = (body w).1
  ∧ closed (with_block body w).2 = true
  ∧ table (with_block body w).2 = table (body w).2
  ∧ sequence (with_block body w).2 = sequence (body w).2
  ∧ stdout (with_block body w).2 = stdout (body w).2
  ∧ ∀ c, (perform c (with_block body w).2).1
         = Raised (ProgrammingError "Cannot operate on a closed database.").
Proof.
  assert ((with_block body w).1 = (body w).1
          ∧ closed (with_block body w).2 = true
          ∧ table (with_block body w).2 = table (body w).2
          ∧ sequence (with_block body w).2 = sequence (body w).2
          ∧ stdout (with_block body w).2 = stdout (body w).2) as H.
  { unfold with_block, block_then_exit, __enter__, __exit__, close, conn_close.
    cbv [mbind M_bind mret M_ret].
    by destruct (body w) as [[a|e] w']. }
  destruct H as (H1 & H2 & H3 & H4 & H5). split_and!; [done..|].
  intros c. by rewrite perform_closed.
Qed.

End context_manager.

(** ** The console helpers *)

Section console.
Import Sqlite BookManager Main.

Lemma bind_eq {A B} (m : M A) (k : A → M B) (w : world) :
  (m ≫= k) w =
    match m w with
    | (Returned a, w') => k a w'
    | (Raised e, w') => (Raised e, w')
    end.
Proof. reflexivity. Qed.

Lemma print_then {B} (line : string) (k : M B) (w : world) :
  (print line ≫= λ _, k) w =
    k (World (table w) (sequence w) (closed w) (fetched w) (lastrowid w) (rowcount w)
             (stdout w ++ [line])).
Proof. reflexivity. Qed.

Lemma len_append (s t : string) : len (s +:+ t) = (len s + len t)%nat.
Proof. induction s as [|c s IH]; [done|]. rewrite append_cons. simpl. by rewrite IH. Qed.

Lemma len_times_char (c : Ascii.ascii) (n : nat) : len (times (String c "") n) = n.
Proof. induction n as [|n IH]; [done|]. cbn [times]. rewrite len_append, IH. done. Qed.

Lemma len_ljust (n : nat) (s : string) : len (ljust n s) = (n `max` len s)%nat.
Proof. unfold ljust. rewrite len_append, (len_times_char " "). lia. Qed.

Lemma len_slice_to (n : nat) (s : string) : len (slice_to n s) = (n `min` len s)%nat.
Proof.
  unfold slice_to. revert s. induction n as [|n IH]; intros [|c s]; simpl; try done.
  by rewrite IH.
Qed.

Lemma len_title_short (t : string) : (len (title_short t) ≤ 30)%nat.
Proof.
  unfold title_short. case_bool_decide; [|lia].
  rewrite len_append, len_slice_to. change (len "...") with 3%nat. lia.
Qed.

Lemma len_author_short (a : string) : (len (author_short a) ≤ 25)%nat.
Proof.
  unfold author_short. case_bool_decide; [|lia].
  rewrite len_append, len_slice_to. change (len "...") with 3%nat. lia.
Qed.

(** Widths in the table of [print_all_books]: the title column is always
    30 characters and the author column 25 (longer values are cut to 27
    and 22 characters and three dots, shorter ones are shown whole and
    padded); the id, year and genre columns are 5, 6 and 12 characters or
    as long as their value.  A line is therefore at least 82 characters,
    as is the header, while the rules above and below are 80. *)
Theorem table_line_width (b : book) :
  len (ljust 30 (title_short (book_title b))) = 30%nat
  ∧ len (ljust 25 (author_short (book_author b))) = 25%nat
  ∧ ((len (book_title b) ≤ 30)%nat → title_short (book_title b) = book_title b)
  ∧ ((len (book_author b) ≤ 25)%nat → author_short (book_author b) = book_author b)
  ∧ len (table_line b)
    = ((5 `max` len (str (book_id b))) + (6 `max` len (int_or_na (book_year b)))
       + (12 `max` len (str_or_na (book_genre b))) + 59)%nat
  ∧ len table_header = 82%nat
  ∧ len (times "=" 80) = 80%nat.
Proof.
  pose proof (len_title_short (book_title b)) as Ht.
  pose proof (len_author_short (book_author b)) as Ha.
  split_and!.
  - rewrite len_ljust. lia.
  - rewrite len_ljust. lia.
  - intros Hl. unfold title_short. by rewrite bool_decide_eq_false_2 by lia.
  - intros Hl. unfold author_short. by rewrite bool_decide_eq_false_2 by lia.
  - unfold table_line. rewrite !len_append, !len_ljust.
    change (len " ") with 1%nat. lia.
  - by vm_compute.
  - apply (len_times_char "=").
Qed.

Lemma table_line_width_witness :
  title_short "1984" = "1984"
  ∧ len (table_line (3, Row "1984" "George Orwell" (Some 1949) None None)) = 82%nat.
Proof.
  destruct (table_line_width (3, Row "1984" "George Orwell" (Some 1949) None None))
    as (_ & _ & Hshort & _ & Hlen & _).
  split.
  - apply Hshort. vm_compute. lia.
  - rewrite Hlen. by vm_compute.
Defined.





Lemma for_each_print {A} (f : A → string) (l : list A) (w : world) :
  for_each l (λ x, print (f x)) w =
    (Returned (),
     World (table w) (sequence w) (closed w) (fetched w) (lastrowid w) (rowcount w)
           (stdout w ++ (f <$> l))).
Proof.
  revert w. induction l as [|x l IH]; intros w.
  - simpl. rewrite app_nil_r. by destruct w.
  - cbn [for_each]. rewrite print_then, IH. simpl.
    by rewrite <- app_assoc.
Qed.

(** [print_all_books] never raises and touches nothing but the console, to
    which it adds the one line "No books found." for an empty list and
    otherwise a rule, the header, a rule, one line per book in the order
    of the list, and a closing rule. *)
Theorem print_all_books_lines (books : list book) (w : world) :
  (print_all_books books w).1 = Returned ()
  ∧ table (print_all_books books w).2 = table w
  ∧ sequence (print_all_books books w).2 = sequence w
  ∧ closed (print_all_books books w).2 = closed w
  ∧ stdout (print_all_books books w).2
    = stdout w ++
      match books with
      | [] => ["No books found."]
      | _ => [newline +:+ times "=" 80; table_header; times "=" 80]
             ++ (table_line <$> books) ++ [times "=" 80 +:+ newline]
      end
  ∧ length (stdout (print_all_books books w).2)
    = (length (stdout w) + match books with [] => 1 | _ => length books + 4 end)%nat.
Proof.
  destruct books as [|b books].
  { simpl. split_and!; try done. rewrite length_app. simpl. lia. }
  unfold print_all_books.
  rewrite !print_then, bind_eq, for_each_print. unfold print.
  cbn [fst snd table sequence closed stdout fetched lastrowid rowcount].
  split_and!; try done.
  - rewrite <- !app_assoc. done.
  - rewrite !length_app, length_fmap. simpl. lia.
Qed.




End console.

(** ** Sample data *)

Section sample_data.
Import Sqlite BookManager Main.

Lemma add_each_cons (x : string * string * Z * string * string)
    (l : list (string * string * Z * string * string)) (w : world) :
  add_each (x :: l) w =
    match add_book x.1.1.1.1 x.1.1.1.2 (Some x.1.1.2) (Some x.1.2) (Some x.2) w with
    | (Returned _, w') => add_each l w'
    | (Raised e, w') => (Raised e, w')
    end.
Proof.
  destruct x as [[[[ti au] y] i] g]. unfold add_each. cbn [for_each fst snd].
  rewrite bind_eq, bind_eq.
  by destruct (add_book ti au (Some y) (Some i) (Some g) w) as [[k|e] w'].
Qed.

(** The loop over any list of tuples, on an open store: it does not raise,
    and each tuple is either stored or answered by one error line. *)
Lemma add_each_open (l : list (string * string * Z * string * string)) (w : world) :
  closed w = false →
  Forall (λ x, fits_int64 x.1.1.2 = true) l →
  ∃ n : nat,
    (add_each l w).1 = Returned ()
    ∧ closed (add_each l w).2 = false
    ∧ sequence w ≤ sequence (add_each l w).2
    ∧ stdout (add_each l w).2
      = stdout w ++ replicate n "Error: UNIQUE constraint failed: books.isbn"
    ∧ (size (table (add_each l w).2) + n = size (table w) + length l)%nat.
Proof.
  revert w. induction l as [|x l IH]; intros w Hc Hfit.
  { exists 0%nat. simpl. by rewrite app_nil_r, Nat.add_0_r. }
  apply Forall_cons in Hfit as [Hx Hfit].
  rewrite add_each_cons, add_book_open by done.
  destruct (unique_violation _ None (table w)) eqn:Hv; cbv beta iota.
  - destruct (IH (with_cursor w [] (lastrowid w) (-1)
                    (stdout w ++ ["Error: UNIQUE constraint failed: books.isbn"])) Hc Hfit)
      as (n & Hret & Hcl & Hseq & Hout & Hsize).
    exists (S n). split_and!; [done|done|done| |].
    + rewrite Hout. simpl. by rewrite <- app_assoc.
    + rewrite length_cons. cbn [table with_cursor] in Hsize. lia.
  - match goal with |- context [add_each l ?w1] =>
      destruct (IH w1 eq_refl Hfit) as (n & Hret & Hcl & Hseq & Hout & Hsize) end.
    exists n. split_and!; [done|done| |done|].
    + etrans; [|exact Hseq]. cbn [sequence]. unfold next_rowid. lia.
    + rewrite length_cons. cbn [table] in Hsize.
      rewrite map_size_insert_None in Hsize by apply next_rowid_fresh. lia.
Qed.

(** The loop over tuples with distinct isbns none of which is held: all are
    stored and nothing is printed. *)
Lemma add_each_fresh (l : list (string * string * Z * string * string)) (w : world) :
  closed w = false →
  Forall (λ x, fits_int64 x.1.1.2 = true) l →
  NoDup ((λ x, x.1.2) <$> l) →
  (∀ x, x ∈ l → ¬ isbn_taken (Some x.1.2) None (table w)) →
  stdout (add_each l w).2 = stdout w
  ∧ size (table (add_each l w).2) = (size (table w) + length l)%nat.
Proof.
  revert w. induction l as [|x l IH]; intros w Hc Hfit Hnd Hfree.
  { simpl. split; [done|lia]. }
  apply Forall_cons in Hfit as [Hxfit Hfit].
  rewrite fmap_cons in Hnd. apply NoDup_cons in Hnd as [Hx Hnd].
  rewrite add_each_cons, add_book_open by done.
  assert (unique_violation (Some x.1.2) None (table w) = false) as ->.
  { apply unique_violation_false, Hfree. by left. }
  cbv beta iota.
  match goal with |- context [add_each l ?w1] =>
    destruct (IH w1 eq_refl Hfit Hnd) as (Hout & Hsize) end.
  { intros x' Hin (i & k & r & [= <-] & Hk & Hr & _). simpl in Hk.
    apply lookup_insert_Some in Hk as [[_ <-]|[_ Hk]].
    - simpl in Hr. injection Hr as Hr. destruct Hx. rewrite Hr.
      apply list_elem_of_fmap. by exists x'.
    - destruct (Hfree x'); [by right|]. by exists x'.1.2, k, r. }
  split; [done|].
  rewrite Hsize. cbn [table]. rewrite map_size_insert_None by apply next_rowid_fresh.
  rewrite length_cons. lia.
Qed.

(** [populate_sample_data] on an open store does not raise.  For each of
    its ten tuples it either stores a row or, when the isbn is already
    held, prints one error line; its last line says that ten books were
    added in either case.  When none of the ten isbns is held, ten rows are
    stored and only the opening and the closing line are printed.  On a
    closed connection it raises after the opening line and stores
    nothing. *)
Theorem populate_sample_data_report (w : world) :
  (closed w = false →
     ∃ n : nat,
       (populate_sample_data w).1 = Returned ()
       ∧ stdout (populate_sample_data w).2
         = stdout w ++ ["Populating database with sample books..."]
           ++ replicate n "Error: UNIQUE constraint failed: books.isbn"
           ++ ["Added 10 sample books." +:+ newline]
       ∧ (size (table (populate_sample_data w).2) + n = size (table w) + 10)%nat
       ∧ ((∀ x, x ∈ sample_books → ¬ isbn_taken (Some x.1.2) None (table w)) → n = 0%nat))
  ∧ (closed w = true →
       (populate_sample_data w).1
         = Raised (ProgrammingError "Cannot operate on a closed database.")
       ∧ stdout (populate_sample_data w).2
         = stdout w ++ ["Populating database with sample books..."]
       ∧ table (populate_sample_data w).2 = table w).
Proof.
  unfold populate_sample_data. rewrite print_then. split.
  - intros Hc. rewrite bind_eq.
    match goal with |- context [add_each sample_books ?w1] => set (w1' := w1) end.
    assert (Forall (λ x, fits_int64 x.1.1.2 = true) sample_books) as Hfit.
    { apply (bool_decide_unpack _). by vm_compute. }
    destruct (add_each_open sample_books w1' Hc Hfit)
      as (n & Hret & Hcl & _ & Hout & Hsize).
    exists n.
    destruct (add_each sample_books w1') as [[[]|e] w2] eqn:Hrun; simpl in Hret; [|done].
    unfold print. cbn [fst snd stdout table] in *.
    split_and!.
    + done.
    + rewrite Hout. unfold w1'. cbn [stdout]. rewrite <- !app_assoc. reflexivity.
    + exact Hsize.
    + intros Hfree.
      destruct (add_each_fresh sample_books w1' Hc Hfit) as (Hout' & Hsize').
      { apply (bool_decide_unpack _). by vm_compute. }
      { exact Hfree. }
      rewrite Hrun in Hsize'. cbn [snd] in Hsize'. lia.
  - intros Hc. rewrite bind_eq. unfold sample_books.
    rewrite add_each_cons, add_book_closed by done. done.
Qed.

Lemma populate_sample_data_report_witness :
  (∃ n : nat,
     stdout (populate_sample_data one_book).2
     = ["Populating database with sample books..."]
       ++ replicate n "Error: UNIQUE constraint failed: books.isbn"
       ++ ["Added 10 sample books." +:+ newline]
     ∧ (size (table (populate_sample_data one_book).2) + n = 11)%nat)
  ∧ size (table (populate_sample_data empty_store).2) = 10%nat.
Proof.
  split.
  - destruct (proj1 (populate_sample_data_report one_book) eq_refl)
      as (n & _ & Hout & Hsize & _).
    exists n. split; [exact Hout|exact Hsize].
  - destruct (proj1 (populate_sample_data_report empty_store) eq_refl)
      as (n & _ & _ & Hsize & Hfresh).
    rewrite Hfresh in Hsize.
    + rewrite Nat.add_0_r in Hsize. exact Hsize.
    + intros x _ (i & k & r & _ & Hk & _). discriminate Hk.
Defined.

End sample_data.

(** ** Writes are local *)

Section local_writes.
Import Sqlite BookManager.

(** On any store and whatever the outcome: [add_book] leaves every stored
    row as it is; [update_book] of an id changes no row of another id and
    neither stores nor removes the id it addresses. *)
Theorem writes_are_local (w : world) :
  (∀ ti au y i g k r,
     table w !! k = Some r → table (add_book ti au y i g w).2 !! k = Some r)
  ∧ (∀ k ti au y i g j,
       j ≠ k → table (update_book k ti au y i g w).2 !! j = table w !! j)
  ∧ (∀ k ti au y i g,
       is_Some (table (update_book k ti au y i g w).2 !! k) ↔ is_Some (table w !! k)).
Proof.
  destruct (closed w) eqn:Hc.
  { split_and!; intros.
    - by rewrite add_book_closed.
    - by rewrite update_book_closed.
    - by rewrite update_book_closed. }
  split_and!.
  - intros ti au y i g k r Hk.
    destruct (fits_int64_opt y) eqn:Hy; [|by rewrite add_book_overflow].
    rewrite add_book_open by done.
    destruct (unique_violation _ _ _); [done|]. cbn [snd table].
    rewrite lookup_insert_ne; [done|]. intros <-.
    by rewrite next_rowid_fresh in Hk.
  - intros k ti au y i g j Hj.
    destruct (fits_int64 k) eqn:Hfit; [|by rewrite update_book_overflow].
    rewrite update_book_open by done.
    destruct (table w !! k); [|done].
    destruct (fits_int64_opt _); [|done].
    destruct (unique_violation _ _ _); [done|]. cbn [snd table].
    by rewrite lookup_insert_ne.
  - intros k ti au y i g.
    destruct (fits_int64 k) eqn:Hfit; [|by rewrite update_book_overflow].
    rewrite update_book_open by done.
    destruct (table w !! k) as [cur|] eqn:Hk; [|by cbn [snd table with_cursor]; rewrite Hk].
    destruct (fits_int64_opt _); [|by cbn [snd table with_cursor]; rewrite Hk].
    destruct (unique_violation _ _ _); cbn [snd table with_cursor].
    + by rewrite Hk.
    + rewrite lookup_insert_eq. split; eauto.
Qed.

Lemma writes_are_local_witness :
  table (add_book "Dune" "Frank Herbert" (Some 1965) None None three_books).2 !! 2
  = Some (Row "The Hobbit" "J.R.R. Tolkien" (Some 1937) None None)
  ∧ table (update_book 1 (Some "HP") None None None None three_books).2 !! 2
    = table three_books !! 2.
Proof.
  destruct (writes_are_local three_books) as (Hadd & Hupd & _).
  split.
  - apply Hadd. by vm_compute.
  - apply Hupd. discriminate.
Defined.

End local_writes.
